(** * The implementors fragment of [core_foundation::base::TCFType]

    A shallow embedding of
    [implementors/core_foundation/base/trait.TCFType.js]: the script builds
    one object [implementors] (library name -> rendered implementor
    descriptions) and hands it to the documentation viewer through two
    properties of the global [window] object,
    [window.register_implementors] and [window.pending_implementors]. *)

From stdpp Require Import base option list strings gmap.

Set Default Proof Using "Type".

(** ** JavaScript completions and the page monad *)

Section Registry.

(** [Batch] is the type of the value a script hands over (the script never
    looks inside it), [World] is whatever an installed callback acts on
    (the rendered page), [Exn] the values a callback may throw. *)
Context {Batch World Exn : Type}.

(** A call either returns or throws. *)
Inductive Completion (A : Type) : Type :=
| Normal (a : A)
| Throw (e : Exn).
Global Arguments Normal {A} a.
Global Arguments Throw {A} e.

(** Modelled from the spec: the function stored in
    [window.register_implementors] is defined by the viewer's runtime,
    which is not part of this file.  It takes one batch, acts on the
    page and returns or throws; the two registry properties of [window]
    are written by [submit] and [install] only (section 5), so a callback
    cannot reach them. *)
Definition Consumer : Type := Batch → World → Completion unit * World.

(** The two properties of [window] the script reads or writes.  [None] is
    the JavaScript [undefined] (falsy); a function or an object is truthy. *)
Record Window : Type := mkWindow {
  register_implementors : option Consumer;
  pending_implementors : option Batch;
}.

(** The state of the page.  [invocations] is a ghost log: every call of a
    callback appends the argument it was called with and how the call
    completed.  No operation reads it. *)
Record Page : Type := mkPage {
  window : Window;
  world : World;
  invocations : list (Batch * Completion unit);
}.

(** Statements of a script: state passing with abrupt completion.  After
    a [Throw] the rest of the script is skipped and the state is the one
    at the throw. *)
Definition Js (A : Type) : Type := Page → Completion A * Page.

Global Instance js_ret : MRet Js := λ A a p, (Normal a, p).

Global Instance js_bind : MBind Js := λ A B k m p,
  match m p with
  | (Normal a, p') => k a p'
  | (Throw e, p') => (Throw e, p')
  end.

(** [window.register_implementors] read as an expression. *)
Definition get_register_implementors : Js (option Consumer) :=
  λ p, (Normal (register_implementors (window p)), p).

(** [window.pending_implementors] read as an expression. *)
Definition get_pending_implementors : Js (option Batch) :=
  λ p, (Normal (pending_implementors (window p)), p).

(** [window.pending_implementors = v;] *)
Definition set_pending_implementors (v : option Batch) : Js unit :=
  λ p, (Normal (),
        {| window := {| register_implementors := register_implementors (window p);
                        pending_implementors := v |};
           world := world p;
           invocations := invocations p |}).

(** [window.register_implementors = v;] *)
Definition set_register_implementors (v : option Consumer) : Js unit :=
  λ p, (Normal (),
        {| window := {| register_implementors := v;
                        pending_implementors := pending_implementors (window p) |};
           world := world p;
           invocations := invocations p |}).

(** [f(b)]: the callback runs on the page; the call is logged. *)
Definition call (f : Consumer) (b : Batch) : Js unit :=
  λ p, let r := f b (world p) in
       (r.1, {| window := window p;
                world := r.2;
                invocations := invocations p ++ [(b, r.1)] |}).

(** ** The hand-off at the end of the script (lines 4 to 8)

<<
    if (window.register_implementors) {
        window.register_implementors(implementors);
    } else {
        window.pending_implementors = implementors;
    }
>> *)
Definition submit (implementors : Batch) : Js unit :=
  r ← get_register_implementors;
  match r with
  | Some register => call register implementors
  | None => set_pending_implementors (Some implementors)
  end.

(** Modelled from the spec: the installation of the consumer, done by the
    viewer's runtime, which is not part of this file.  Section 4.1: "if a
    pending queue is non-empty, deliver each queued batch to [consumer],
    in original submission order, then clear the queue; store [consumer]
    as the active delivery target for all future [submit] calls".  The
    pending queue is what [submit] left in [window.pending_implementors]. *)
Definition install (consumer : Consumer) : Js unit :=
  q ← get_pending_implementors;
  match q with
  | Some b => call consumer b;; set_pending_implementors None
  | None => mret ()
  end;;
  set_register_implementors (Some consumer).

(** ** Executions

    Every script of the page and the installation run as tasks of their
    own, one after the other (section 5): an exception that leaves a
    task ends that task only, and the next one starts from the state
    the failed one left. *)
Inductive Op : Type :=
| Submit (b : Batch)
| Install (consumer : Consumer).

Definition exec (op : Op) : Js unit :=
  match op with
  | Submit b => submit b
  | Install consumer => install consumer
  end.

Definition task (p : Page) (op : Op) : Page := (exec op p).2.

Definition run (ops : list Op) (p : Page) : Page := foldl task p ops.

(** A freshly loaded page: neither property of [window] is defined. *)
Definition initial (w0 : World) : Page :=
  {| window := {| register_implementors := None; pending_implementors := None |};
     world := w0;
     invocations := [] |}.

Inductive reachable : Page → Prop :=
| reachable_initial w0 : reachable (initial w0)
| reachable_task p op : reachable p → reachable (task p op).

(** The batches submitted by an execution, in submission order. *)
Definition submitted (ops : list Op) : list Batch :=
  omap (λ op, match op with Submit b => Some b | Install _ => None end) ops.

(** The arguments of all callback invocations so far, oldest first. *)
Definition delivered (p : Page) : list Batch := (invocations p).*1.


(** What sits in the pending slot, as a queue of length at most one. *)
Definition pending (p : Page) : list Batch :=
  option_list (pending_implementors (window p)).

(** The two shapes of [window]: no consumer yet, and a consumer with
    nothing pending. *)
Definition awaiting_consumer (p : Page) : Prop :=
  register_implementors (window p) = None.

Definition consumer_installed (p : Page) : Prop :=
  is_Some (register_implementors (window p))
  ∧ pending_implementors (window p) = None.

End Registry.

Global Arguments Completion : clear implicits.
Global Arguments Consumer : clear implicits.
Global Arguments Window : clear implicits.
Global Arguments Page : clear implicits.
Global Arguments Js : clear implicits.
Global Arguments Op : clear implicits.

(** ** The script

    Line 1 creates the empty object, line 2 assigns one array of rendered
    descriptions per library, lines 4 to 8 hand the object over.  A
    JavaScript object used as a dictionary is a finite map from property
    names to values; [obj[k] = v] binds [k] to [v], replacing an older
    binding.  The comma before the closing bracket of an array literal adds
    no element. *)

Module Fragment.

Local Open Scope string_scope.

Definition implementors : gmap string (list string) :=
  let implementors : gmap string (list string) := ∅ in
  let implementors := <["core_foundation" := []]> implementors in
  let implementors := <["core_graphics" := [
    "impl <a class='trait' href='core_foundation/base/trait.TCFType.html' title='core_foundation::base::TCFType'>TCFType</a>&lt;<a class='type' href='core_graphics/color_space/type.CGColorSpaceRef.html' title='core_graphics::color_space::CGColorSpaceRef'>CGColorSpaceRef</a>&gt; for <a class='struct' href='core_graphics/color_space/struct.CGColorSpace.html' title='core_graphics::color_space::CGColorSpace'>CGColorSpace</a>";
    "impl <a class='trait' href='core_foundation/base/trait.TCFType.html' title='core_foundation::base::TCFType'>TCFType</a>&lt;<a class='type' href='core_graphics/context/type.CGContextRef.html' title='core_graphics::context::CGContextRef'>CGContextRef</a>&gt; for <a class='struct' href='core_graphics/context/struct.CGContext.html' title='core_graphics::context::CGContext'>CGContext</a>";
    "impl <a class='trait' href='core_foundation/base/trait.TCFType.html' title='core_foundation::base::TCFType'>TCFType</a>&lt;<a class='type' href='core_graphics/data_provider/type.CGDataProviderRef.html' title='core_graphics::data_provider::CGDataProviderRef'>CGDataProviderRef</a>&gt; for <a class='struct' href='core_graphics/data_provider/struct.CGDataProvider.html' title='core_graphics::data_provider::CGDataProvider'>CGDataProvider</a>";
    "impl <a class='trait' href='core_foundation/base/trait.TCFType.html' title='core_foundation::base::TCFType'>TCFType</a>&lt;<a class='type' href='core_graphics/font/type.CGFontRef.html' title='core_graphics::font::CGFontRef'>CGFontRef</a>&gt; for <a class='struct' href='core_graphics/font/struct.CGFont.html' title='core_graphics::font::CGFont'>CGFont</a>"
  ]]> implementors in
  let implementors := <["cocoa" := [
    "impl <a class='trait' href='core_foundation/base/trait.TCFType.html' title='core_foundation::base::TCFType'>TCFType</a>&lt;<a class='primitive' href='https://doc.rust-lang.org/nightly/std/primitive.pointer.html'>*const </a><a class='struct' href='core_graphics/color_space/struct.__CGColorSpace.html' title='core_graphics::color_space::__CGColorSpace'>__CGColorSpace</a>&gt; for <a class='struct' href='core_graphics/color_space/struct.CGColorSpace.html' title='core_graphics::color_space::CGColorSpace'>CGColorSpace</a>";
    "impl <a class='trait' href='core_foundation/base/trait.TCFType.html' title='core_foundation::base::TCFType'>TCFType</a>&lt;<a class='primitive' href='https://doc.rust-lang.org/nightly/std/primitive.pointer.html'>*const </a><a class='struct' href='core_graphics/context/struct.__CGContext.html' title='core_graphics::context::__CGContext'>__CGContext</a>&gt; for <a class='struct' href='core_graphics/context/struct.CGContext.html' title='core_graphics::context::CGContext'>CGContext</a>";
    "impl <a class='trait' href='core_foundation/base/trait.TCFType.html' title='core_foundation::base::TCFType'>TCFType</a>&lt;<a class='primitive' href='https://doc.rust-lang.org/nightly/std/primitive.pointer.html'>*const </a><a class='struct' href='core_graphics/data_provider/struct.__CGDataProvider.html' title='core_graphics::data_provider::__CGDataProvider'>__CGDataProvider</a>&gt; for <a class='struct' href='core_graphics/data_provider/struct.CGDataProvider.html' title='core_graphics::data_provider::CGDataProvider'>CGDataProvider</a>";
    "impl <a class='trait' href='core_foundation/base/trait.TCFType.html' title='core_foundation::base::TCFType'>TCFType</a>&lt;<a class='primitive' href='https://doc.rust-lang.org/nightly/std/primitive.pointer.html'>*const </a><a class='struct' href='core_graphics/font/struct.__CGFont.html' title='core_graphics::font::__CGFont'>__CGFont</a>&gt; for <a class='struct' href='core_graphics/font/struct.CGFont.html' title='core_graphics::font::CGFont'>CGFont</a>"
  ]]> implementors in
  implementors.

(** The whole script: the anonymous function called at load time. *)
Definition script {World Exn : Type}
  : Js (gmap string (list string)) World Exn unit :=
  submit implementors.

End Fragment.

(** ** Small pages to run the operations on

    The batches and the logging consumer of the scenarios of section 8, and
    a consumer that throws. *)

Module Scenario.

Local Open Scope string_scope.

Definition lib1 : gmap string (list string) := {["lib1" := ["r1"; "r2"]]}.
Definition lib2 : gmap string (list string) := {["lib2" := ["r3"]]}.
Definition libX : gmap string (list string) := {["libX" := []]}.

(** The callback appends what it is given to the log it keeps. *)
Definition logger
  : Consumer (gmap string (list string)) (list (gmap string (list string))) string :=
  λ b log, (Normal (), (log ++ [b])%list).

(** The callback throws on every batch. *)
Definition faulty
  : Consumer (gmap string (list string)) (list (gmap string (list string))) string :=
  λ b log, (Throw "faulty", log).

Definition fresh
  : Page (gmap string (list string)) (list (gmap string (list string))) string :=
  initial [].

End Scenario.

(** * Properties *)

(** ** One task at a time *)

Section Steps.

Context {Batch World Exn : Type}.
Implicit Types (b : Batch) (p : Page Batch World Exn).
Implicit Types (f g : Consumer Batch World Exn).

Lemma submit_unfold b p :
  submit b p =
    match register_implementors (window p) with
    | Some register => call register b p
    | None => set_pending_implementors (Some b) p
    end.
Proof.
  unfold submit, mbind, js_bind, get_register_implementors. cbn.
  by destruct (register_implementors (window p)).
Qed.

Lemma install_unfold g p :
  install g p =
    match pending_implementors (window p) with
    | Some b =>
        match (g b (world p)).1 with
        | Normal _ =>
            (Normal (),
             {| window := {| register_implementors := Some g;
                             pending_implementors := None |};
                world := (g b (world p)).2;
                invocations := invocations p ++ [(b, (g b (world p)).1)] |})
        | Throw e =>
            (Throw e,
             {| window := window p;
                world := (g b (world p)).2;
                invocations := invocations p ++ [(b, (g b (world p)).1)] |})
        end
    | None =>
        (Normal (),
         {| window := {| register_implementors := Some g;
                         pending_implementors := None |};
            world := world p;
            invocations := invocations p |})
    end.
Proof.
  unfold install, mbind, js_bind, get_pending_implementors, call. cbn.
  destruct p as [[r [b|]] w l]; cbn; [|done].
  by destruct (g b w) as [[[]|e] w'].
Qed.

End Steps.

(** ** What one [submit] does *)

Section Submit.

Context {Batch World Exn : Type}.
Implicit Types (b : Batch) (p : Page Batch World Exn).
Implicit Types (f g : Consumer Batch World Exn) (e : Exn).

(** C2: a batch submitted while a consumer [f] is installed makes [submit]
    call [f] inside the same call (synchronously), exactly once and with
    exactly that batch: the page is the one [f] leaves after one run on
    it, the log of invocations grows by this one call, [submit] completes
    the way the call did, and [window] is as before, so nothing was put
    into the pending slot. *)
Theorem submit_invokes_installed_consumer b p f :
  register_implementors (window p) = Some f →
  (submit b p).1 = (f b (world p)).1
  ∧ world (submit b p).2 = (f b (world p)).2
  ∧ invocations (submit b p).2 = invocations p ++ [(b, (f b (world p)).1)]
  ∧ window (submit b p).2 = window p.
Proof. intros Hf. rewrite submit_unfold, Hf. done. Qed.

(** C6: [submit] takes a batch of any type whatsoever and never looks at
    it.  With no consumer installed it returns normally, with no value
    (the unit), for every batch; with a consumer installed it completes
    exactly as the consumer's call did.  So no failure originates in
    [submit] itself: the only abrupt completion it can have is the one
    thrown by the installed consumer. *)
Theorem submit_never_fails_by_itself b p :
  (submit b p).1 =
    match register_implementors (window p) with
    | Some f => (f b (world p)).1
    | None => Normal ()
    end.
Proof. rewrite submit_unfold. by destruct (register_implementors (window p)). Qed.

(** C7: when the consumer throws [e] during a delivery, the caller of
    [submit], respectively of [install], gets the very same [e]; the
    consumer has been called once and is not called again, and [window]
    is what it was when the consumer was called: nothing is queued,
    cleared or installed on the way out. *)
Theorem consumer_failure_propagates b p g e :
  (g b (world p)).1 = Throw e →
  (register_implementors (window p) = Some g →
     (submit b p).1 = Throw e
     ∧ window (submit b p).2 = window p
     ∧ invocations (submit b p).2 = invocations p ++ [(b, Throw e)])
  ∧ (pending_implementors (window p) = Some b →
     (install g p).1 = Throw e
     ∧ window (install g p).2 = window p
     ∧ invocations (install g p).2 = invocations p ++ [(b, Throw e)]).
Proof.
  intros He. split.
  - intros Hg. rewrite submit_unfold, Hg. cbn. by rewrite He.
  - intros Hb. rewrite install_unfold, Hb, He. done.
Qed.

(** C8: with no consumer installed, [submit] leaves in
    [window.pending_implementors] exactly the batch it was given, whatever
    was there before, and changes nothing else; after two such calls the
    slot holds the second batch only. *)
Theorem submit_overwrites_pending b p :
  register_implementors (window p) = None →
  submit b p =
    (Normal (),
     {| window := {| register_implementors := None;
                     pending_implementors := Some b |};
        world := world p;
        invocations := invocations p |})
  ∧ ∀ b', pending_implementors (window (run [Submit b; Submit b'] p)) = Some b'.
Proof.
  intros Hn. split.
  - rewrite submit_unfold, Hn. unfold set_pending_implementors. by rewrite Hn.
  - intros b'. unfold run, task. cbn. rewrite !submit_unfold, Hn. cbn. by rewrite Hn.
Qed.

(** C9: [submit] never writes [window.register_implementors]: the
    reference found there before the call (or its absence) is there
    after it. *)
Theorem submit_preserves_register_implementors b p :
  register_implementors (window (submit b p).2) = register_implementors (window p).
Proof.
  rewrite submit_unfold.
  destruct (register_implementors (window p)) eqn:Hr; cbn; congruence.
Qed.

End Submit.

(** ** Executions: the state after a sequence of tasks *)

Section Executions.

Context {Batch World Exn : Type}.
Implicit Types (b d : Batch) (p : Page Batch World Exn).
Implicit Types (f g : Consumer Batch World Exn) (e : Exn).
Implicit Types (op : Op Batch World Exn) (ops post : list (Op Batch World Exn)).
Implicit Types (pre : list Batch).

Lemma task_submit p b :
  task p (Submit b) =
    match register_implementors (window p) with
    | Some f =>
        {| window := window p;
           world := (f b (world p)).2;
           invocations := invocations p ++ [(b, (f b (world p)).1)] |}
    | None =>
        {| window := {| register_implementors := None;
                        pending_implementors := Some b |};
           world := world p;
           invocations := invocations p |}
    end.
Proof.
  unfold task. cbn. rewrite submit_unfold.
  destruct (register_implementors (window p)) eqn:Hr; [done|].
  unfold set_pending_implementors. by rewrite Hr.
Qed.

Lemma task_install p g :
  task p (Install g) =
    match pending_implementors (window p) with
    | Some b =>
        {| window :=
             match (g b (world p)).1 with
             | Normal _ => {| register_implementors := Some g;
                              pending_implementors := None |}
             | Throw _ => window p
             end;
           world := (g b (world p)).2;
           invocations := invocations p ++ [(b, (g b (world p)).1)] |}
    | None =>
        {| window := {| register_implementors := Some g;
                        pending_implementors := None |};
           world := world p;
           invocations := invocations p |}
    end.
Proof.
  unfold task. cbn. rewrite install_unfold.
  destruct (pending_implementors (window p)); [|done].
  by destruct ((g b (world p)).1).
Qed.

Lemma run_app ops post p : run (ops ++ post) p = run post (run ops p).
Proof. apply foldl_app. Qed.

Lemma run_snoc ops op p : run (ops ++ [op]) p = task (run ops p) op.
Proof. by rewrite run_app. Qed.

Lemma submitted_snoc ops op :
  submitted (ops ++ [op]) =
    submitted ops ++ match op with Submit b => [b] | Install _ => [] end.
Proof. unfold submitted. rewrite omap_app. by destruct op. Qed.


Lemma task_consumer_installed p op :
  consumer_installed p → consumer_installed (task p op).
Proof.
  intros [[f Hf] Hq]. destruct op as [b|g].
  - rewrite task_submit, Hf. split; cbn; [by rewrite Hf|done].
  - rewrite task_install, Hq. split; cbn; [by eexists|done].
Qed.

Lemma run_consumer_installed ops p :
  consumer_installed p → consumer_installed (run ops p).
Proof.
  revert p. induction ops as [|op ops IH]; intros p Hp; [done|].
  cbn. apply IH. by apply task_consumer_installed.
Qed.

Lemma reachable_shape p :
  reachable p → awaiting_consumer p ∨ consumer_installed p.
Proof.
  induction 1 as [w0|p op _ [Hn|Hi]].
  - by left.
  - destruct op as [b|g].
    + left. unfold awaiting_consumer in *. rewrite task_submit, Hn. done.
    + rewrite task_install.
      destruct (pending_implementors (window p)) as [b|] eqn:Hq.
      * destruct ((g b (world p)).1) eqn:Hg.
        -- right. split; cbn; [by eexists|done].
        -- left. done.
      * right. split; cbn; [by eexists|done].
  - right. by apply task_consumer_installed.
Qed.


End Executions.

(** ** Delivery across an execution *)

Section Delivery.

Context {Batch World Exn : Type}.
Implicit Types (b d : Batch) (p : Page Batch World Exn).
Implicit Types (f g : Consumer Batch World Exn) (e : Exn).
Implicit Types (op : Op Batch World Exn) (ops post : list (Op Batch World Exn)).
Implicit Types (pre : list Batch) (w : World).





Lemma delivered_pending_submitted ops w0 d :
  d ∈ delivered (run ops (initial w0)) ++ pending (run ops (initial w0)) →
  d ∈ submitted ops.
Proof.
  induction ops as [|op ops IH] using rev_ind.
  { cbn. by intros ?%elem_of_nil. }
  rewrite run_snoc, submitted_snoc.
  set (p := run ops (initial w0)) in *.
  rewrite elem_of_app in IH. rewrite !elem_of_app.
  unfold delivered, pending in *.
  destruct op as [b|g].
  - rewrite task_submit.
    destruct (register_implementors (window p)) as [f|]; cbn.
    + rewrite fmap_app, elem_of_app. cbn. tauto.
    + tauto.
  - rewrite task_install.
    destruct (pending_implementors (window p)) as [b|] eqn:Hq; cbn.
    + rewrite fmap_app, elem_of_app. cbn in *.
      destruct ((g b (world p)).1); cbn; [|rewrite Hq; cbn]; tauto.
    + tauto.
Qed.





End Delivery.

(** ** The registry as a whole *)

Section RegistryClaims.

Context {Batch World Exn : Type}.
Implicit Types (b d : Batch) (p : Page Batch World Exn).
Implicit Types (f g : Consumer Batch World Exn) (e : Exn).
Implicit Types (op : Op Batch World Exn) (ops post : list (Op Batch World Exn)).
Implicit Types (pre : list Batch) (w : World).

(** C1 (as amended): when two batches [b1] and [b2] are submitted in this
    order while no consumer is installed, the pending slot afterwards
    holds [b2] only, and a following [install f] calls [f] exactly once,
    with [b2]: the log of invocations grows by that one call, the page is
    what one run of [f] on [b2] leaves, and [install] completes as that
    call did.  The batch submitted last is the one kept. *)
Theorem install_delivers_latest_pending b1 b2 f p :
  register_implementors (window p) = None →
  pending (run [Submit b1; Submit b2] p) = [b2]
  ∧ (install f (run [Submit b1; Submit b2] p)).1 = (f b2 (world p)).1
  ∧ invocations (install f (run [Submit b1; Submit b2] p)).2
    = invocations p ++ [(b2, (f b2 (world p)).1)]
  ∧ world (install f (run [Submit b1; Submit b2] p)).2 = (f b2 (world p)).2.
Proof.
  intros Hn.
  assert (run [Submit b1; Submit b2] p =
            {| window := {| register_implementors := None;
                            pending_implementors := Some b2 |};
               world := world p;
               invocations := invocations p |}) as ->.
  { unfold run. cbn. rewrite (task_submit p), Hn. by rewrite task_submit. }
  rewrite install_unfold. cbn.
  by destruct ((f b2 (world p)).1) as [[]|e].
Qed.


(** C5: in every state the page can reach, [window] never holds a pending
    batch and an installed consumer together; and once a consumer is
    installed, whatever tasks follow, a consumer stays installed and the
    pending slot stays empty: nothing is buffered any more. *)
Theorem buffer_or_consumer_never_both p :
  reachable p →
  ¬ (is_Some (register_implementors (window p))
     ∧ is_Some (pending_implementors (window p)))
  ∧ ∀ ops,
      is_Some (register_implementors (window p)) →
      is_Some (register_implementors (window (run ops p)))
      ∧ pending_implementors (window (run ops p)) = None.
Proof.
  intros Hp. destruct (reachable_shape p Hp) as [Hn|Hi]; split.
  - unfold awaiting_consumer in Hn. rewrite Hn. intros [[? [=]] _].
  - unfold awaiting_consumer in Hn. rewrite Hn. intros ops [? [=]].
  - destruct Hi as [_ Hq]. rewrite Hq. intros [_ [? [=]]].
  - intros ops _. by apply run_consumer_installed.
Qed.

End RegistryClaims.

(** C4: whatever batch [d] a consumer is called with in an execution from a
    fresh page, [d] is one of the batches submitted, and under every
    subject key [k] it carries the same sequence of records, in the same
    order, as that batch did when submitted. *)
Theorem delivered_records_as_submitted {V World Exn : Type}
    (ops : list (Op (gmap string (list V)) World Exn)) (w0 : World)
    (d : gmap string (list V)) :
  d ∈ delivered (run ops (initial w0)) →
  ∃ b, b ∈ submitted ops ∧ ∀ k : string, d !! k = b !! k.
Proof.
  intros Hd. exists d. split; [|done].
  apply (delivered_pending_submitted ops w0), elem_of_app. by left.
Qed.

(** ** The batch of this script *)

Section FragmentFacts.

Local Open Scope string_scope.

(** C10: the object the script hands over has exactly the three keys
    [core_foundation], [core_graphics] and [cocoa]; the first is bound to
    the empty array, the other two to arrays of four descriptions each.
    On a fresh page the script returns normally and leaves that object,
    empty array included, in the pending slot. *)
Theorem implementors_three_subjects :
  dom Fragment.implementors = {["core_foundation"; "core_graphics"; "cocoa"]}
  ∧ Fragment.implementors !! "core_foundation" = Some []
  ∧ length <$> Fragment.implementors !! "core_graphics" = Some 4
  ∧ length <$> Fragment.implementors !! "cocoa" = Some 4
  ∧ ∀ (World Exn : Type) (w0 : World),
      Fragment.script (Exn := Exn) (initial w0) =
        (Normal (),
         {| window := {| register_implementors := None;
                         pending_implementors := Some Fragment.implementors |};
            world := w0;
            invocations := [] |}).
Proof.
  split; [|split; [|split; [|split]]].
  - unfold Fragment.implementors. cbv zeta.
    rewrite !dom_insert_L, dom_empty_L. set_solver.
  - reflexivity.
  - reflexivity.
  - reflexivity.
  - reflexivity.
Qed.

End FragmentFacts.

(** ** The scenarios, run *)

Section ScenarioFacts.

Import Scenario.

Lemma lib1_neq_lib2 : lib1 ≠ lib2.
Proof. intros H. by apply (f_equal (λ m, m !! "lib1"%string)) in H. Qed.


(** Scenario A of section 8, as the code runs it. *)
Example scenario_A :
  world (run [Submit lib1; Submit lib2; Install logger] fresh) = [lib2].
Proof. reflexivity. Qed.

(** Scenario B: the consumer first, then one batch with an empty array. *)
Example scenario_B :
  run [Install logger; Submit libX] fresh =
    {| window := {| register_implementors := Some logger;
                    pending_implementors := None |};
       world := [libX];
       invocations := [(libX, Normal ())] |}.
Proof. reflexivity. Qed.

(** Scenario C: nothing submitted, the consumer is never called. *)
Example scenario_C : invocations (run [Install logger] fresh) = [].
Proof. reflexivity. Qed.

(** This script alone, then the consumer: the object arrives as built. *)
Example script_then_install :
  world (run [Submit Fragment.implementors; Install logger] fresh)
  = [Fragment.implementors].
Proof. reflexivity. Qed.

(** C1, counterexample (scenario A): [lib1] then [lib2] are submitted
    before the logger is installed.  The claim expects the logger to be
    called with [lib1] and then with [lib2]; it is called once, with
    [lib2], and [lib1] has left the pending slot before the installation. *)
Lemma two_pending_batches_first_dropped :
  delivered (run [Submit lib1; Submit lib2; Install logger] fresh) = [lib2]
  ∧ delivered (run [Submit lib1; Submit lib2; Install logger] fresh) ≠ [lib1; lib2]
  ∧ pending (run [Submit lib1] fresh) = [lib1]
  ∧ lib1 ∉ pending (run [Submit lib1; Submit lib2] fresh).
Proof.
  split; [reflexivity|]. split; [discriminate|]. split; [reflexivity|].
  change (pending (run [Submit lib1; Submit lib2] fresh)) with [lib2].
  intros Hin%list_elem_of_singleton. by apply lib1_neq_lib2.
Qed.

Lemma install_delivers_latest_pending_witness :
  register_implementors (window fresh) = None
  ∧ pending (run [Submit lib1; Submit lib2] fresh) = [lib2]
  ∧ (install logger (run [Submit lib1; Submit lib2] fresh)).1 = Normal ()
  ∧ invocations (install logger (run [Submit lib1; Submit lib2] fresh)).2
    = [(lib2, Normal ())]
  ∧ world (install logger (run [Submit lib1; Submit lib2] fresh)).2 = [lib2].
Proof.
  split; [reflexivity|].
  apply (install_delivers_latest_pending lib1 lib2 logger fresh). reflexivity.
Defined.

Lemma submit_invokes_installed_consumer_witness :
  register_implementors (window (run [Install logger] fresh)) = Some logger
  ∧ (submit libX (run [Install logger] fresh)).1 = Normal ()
  ∧ world (submit libX (run [Install logger] fresh)).2 = [libX]
  ∧ invocations (submit libX (run [Install logger] fresh)).2 = [(libX, Normal ())]
  ∧ window (submit libX (run [Install logger] fresh)).2
    = window (run [Install logger] fresh).
Proof.
  split; [reflexivity|].
  apply (submit_invokes_installed_consumer libX (run [Install logger] fresh) logger).
  reflexivity.
Defined.



Lemma delivered_records_as_submitted_witness :
  lib2 ∈ delivered (run [Submit lib1; Submit lib2; Install logger] fresh)
  ∧ ∃ b, b ∈ submitted [Submit lib1; Submit lib2; Install logger]
         ∧ ∀ k : string, lib2 !! k = b !! k.
Proof.
  assert (lib2 ∈ delivered (run [Submit lib1; Submit lib2; Install logger] fresh)) as Hd
    by (change (delivered _) with [lib2]; left).
  split; [exact Hd|].
  exact (delivered_records_as_submitted
           [Submit lib1; Submit lib2; Install logger] [] lib2 Hd).
Defined.

Lemma buffer_or_consumer_never_both_witness :
  reachable (run [Submit lib1; Install logger] fresh)
  ∧ ¬ (is_Some (register_implementors (window (run [Submit lib1; Install logger] fresh)))
       ∧ is_Some (pending_implementors (window (run [Submit lib1; Install logger] fresh))))
  ∧ (is_Some (register_implementors (window (run [Submit lib1; Install logger] fresh)))
     ∧ is_Some (register_implementors
                  (window (run [Submit lib2] (run [Submit lib1; Install logger] fresh))))
     ∧ pending_implementors
         (window (run [Submit lib2] (run [Submit lib1; Install logger] fresh))) = None).
Proof.
  assert (reachable (run [Submit lib1; Install logger] fresh)) as Hr
    by (do 2 apply reachable_task; apply reachable_initial).
  assert (is_Some (register_implementors
                     (window (run [Submit lib1; Install logger] fresh)))) as Hs
    by (eexists; reflexivity).
  split; [exact Hr|]. split.
  - exact (proj1 (buffer_or_consumer_never_both _ Hr)).
  - split; [exact Hs|].
    exact (proj2 (buffer_or_consumer_never_both _ Hr) [Submit lib2] Hs).
Defined.

Lemma consumer_failure_propagates_witness :
  (faulty libX []).1 = Throw "faulty"%string
  ∧ (register_implementors (window (mkPage (mkWindow (Some faulty) None) [] []))
       = Some faulty
     ∧ (submit libX (mkPage (mkWindow (Some faulty) None) [] [])).1
       = Throw "faulty"%string
     ∧ window (submit libX (mkPage (mkWindow (Some faulty) None) [] [])).2
       = mkWindow (Some faulty) None
     ∧ invocations (submit libX (mkPage (mkWindow (Some faulty) None) [] [])).2
       = [(libX, Throw "faulty"%string)])
  ∧ (pending_implementors (window (run [Submit libX] fresh)) = Some libX
     ∧ (install faulty (run [Submit libX] fresh)).1 = Throw "faulty"%string
     ∧ window (install faulty (run [Submit libX] fresh)).2
       = window (run [Submit libX] fresh)
     ∧ invocations (install faulty (run [Submit libX] fresh)).2
       = [(libX, Throw "faulty"%string)]).
Proof.
  split; [reflexivity|]. split.
  - split; [reflexivity|].
    apply (proj1 (consumer_failure_propagates libX
                    (mkPage (mkWindow (Some faulty) None) [] []) faulty
                    "faulty"%string eq_refl)).
    reflexivity.
  - split; [reflexivity|].
    apply (proj2 (consumer_failure_propagates libX (run [Submit libX] fresh) faulty
                    "faulty"%string eq_refl)).
    reflexivity.
Defined.

Lemma submit_overwrites_pending_witness :
  register_implementors (window (run [Submit lib1] fresh)) = None
  ∧ submit lib2 (run [Submit lib1] fresh) =
      (Normal (),
       {| window := {| register_implementors := None;
                       pending_implementors := Some lib2 |};
          world := [];
          invocations := [] |})
  ∧ ∀ b', pending_implementors
            (window (run [Submit lib2; Submit b'] (run [Submit lib1] fresh))) = Some b'.
Proof.
  split; [reflexivity|].
  apply (submit_overwrites_pending lib2 (run [Submit lib1] fresh)). reflexivity.
Defined.

End ScenarioFacts.

(** ** Several scripts in a row

    What the hand-off of lines 4 to 8 does when any number of scripts of
    this shape run one after the other, with no installation in between. *)

Section Scripts.

Context {Batch World Exn : Type}.
Implicit Types (b : Batch) (bs : list Batch) (p : Page Batch World Exn).
Implicit Types (f : Consumer Batch World Exn).

(** X1: while no consumer is installed, the last script wins.  After any
    number of scripts the pending slot holds the batch of the last one (or
    what it held before, when no script ran), no consumer is installed, and
    no callback was called: the page and the log of invocations are as
    before. *)
Theorem scripts_last_writer_wins bs p :
  register_implementors (window p) = None →
  run (Submit <$> bs) p =
    {| window := {| register_implementors := None;
                    pending_implementors :=
                      match last bs with
                      | Some b => Some b
                      | None => pending_implementors (window p)
                      end |};
       world := world p;
       invocations := invocations p |}.
Proof.
  intros Hn. induction bs as [|b bs IH] using rev_ind.
  - destruct p as [[r q] w l]. cbn in *. by subst.
  - rewrite fmap_snoc, run_snoc, IH, task_submit. cbn. by rewrite last_snoc.
Qed.

(** X2: while a consumer [f] is installed, every script reaches it.  After
    the scripts with batches [bs], [f] has been called on each batch of
    [bs] once, in the order the scripts ran, whether or not some of the
    calls threw; the page is what [f] made of it batch after batch, and
    [window] is untouched: [f] is still installed and the pending slot is
    as it was. *)
Theorem scripts_reach_installed_consumer bs p f :
  register_implementors (window p) = Some f →
  window (run (Submit <$> bs) p) = window p
  ∧ delivered (run (Submit <$> bs) p) = delivered p ++ bs
  ∧ world (run (Submit <$> bs) p) = foldl (λ w b, (f b w).2) (world p) bs.
Proof.
  intros Hf. induction bs as [|b bs (Hw & Hd & Hworld)] using rev_ind.
  - cbn. by rewrite app_nil_r.
  - rewrite fmap_snoc, run_snoc, task_submit, Hw, Hf. cbn.
    split; [done|]. split.
    + unfold delivered in *. cbn. by rewrite fmap_app, Hd, <-(assoc_L (++)).
    + by rewrite foldl_app, Hworld.
Qed.

(** X3: scripts alone never change the shape of the registry.  Whatever
    scripts run, the reference in [window.register_implementors] is the
    one found before them, and a pending slot that held a batch still
    holds one: a script never clears it. *)
Theorem scripts_keep_registry_shape bs p :
  register_implementors (window (run (Submit <$> bs) p))
    = register_implementors (window p)
  ∧ (is_Some (pending_implementors (window p)) →
     is_Some (pending_implementors (window (run (Submit <$> bs) p)))).
Proof.
  induction bs as [|b bs [IHr IHq]] using rev_ind; [done|].
  rewrite fmap_snoc, run_snoc, task_submit.
  destruct (register_implementors (window (run (Submit <$> bs) p))) as [f|] eqn:Hr.
  - cbn. by rewrite Hr.
  - cbn. split; [done|]. by eexists.
Qed.

(** X4: running the same script twice.  With no consumer installed the
    second run changes nothing: the page is the one the first run left.
    With a consumer installed the second run calls the consumer again with
    the same batch. *)
Theorem script_twice b p :
  (register_implementors (window p) = None →
   run [Submit b; Submit b] p = run [Submit b] p)
  ∧ (∀ f, register_implementors (window p) = Some f →
     delivered (run [Submit b; Submit b] p) = delivered (run [Submit b] p) ++ [b]).
Proof.
  split.
  - intros Hn. unfold run. cbn. rewrite (task_submit p), Hn. by rewrite task_submit.
  - intros f Hf. unfold run, delivered. cbn. rewrite (task_submit p), Hf.
    rewrite task_submit. cbn. rewrite Hf. cbn. by rewrite fmap_app.
Qed.

End Scripts.

Section ScriptsRun.

Import Scenario.

Lemma scripts_last_writer_wins_witness :
  register_implementors (window fresh) = None
  ∧ run (Submit <$> [lib1; lib2; libX]) fresh =
      {| window := {| register_implementors := None;
                      pending_implementors := Some libX |};
         world := [];
         invocations := [] |}.
Proof.
  split; [reflexivity|].
  apply (scripts_last_writer_wins [lib1; lib2; libX] fresh). reflexivity.
Defined.

Lemma scripts_reach_installed_consumer_witness :
  register_implementors (window (mkPage (mkWindow (Some logger) None) [] []))
    = Some logger
  ∧ window (run (Submit <$> [lib1; lib2]) (mkPage (mkWindow (Some logger) None) [] []))
    = mkWindow (Some logger) None
  ∧ delivered (run (Submit <$> [lib1; lib2]) (mkPage (mkWindow (Some logger) None) [] []))
    = [lib1; lib2]
  ∧ world (run (Submit <$> [lib1; lib2]) (mkPage (mkWindow (Some logger) None) [] []))
    = [lib1; lib2].
Proof.
  split; [reflexivity|].
  apply (scripts_reach_installed_consumer [lib1; lib2]
           (mkPage (mkWindow (Some logger) None) [] []) logger).
  reflexivity.
Defined.

Lemma scripts_keep_registry_shape_witness :
  is_Some (pending_implementors (window (run [Submit lib1] fresh)))
  ∧ is_Some (pending_implementors
               (window (run (Submit <$> [lib2; libX]) (run [Submit lib1] fresh)))).
Proof.
  assert (is_Some (pending_implementors (window (run [Submit lib1] fresh)))) as Hq
    by (eexists; reflexivity).
  split; [exact Hq|].
  exact (proj2 (scripts_keep_registry_shape [lib2; libX] (run [Submit lib1] fresh)) Hq).
Defined.

Lemma script_twice_witness :
  (register_implementors (window fresh) = None
   ∧ run [Submit lib1; Submit lib1] fresh = run [Submit lib1] fresh)
  ∧ (register_implementors (window (mkPage (mkWindow (Some logger) None) [] []))
       = Some logger
     ∧ delivered (run [Submit lib1; Submit lib1]
                    (mkPage (mkWindow (Some logger) None) [] []))
       = delivered (run [Submit lib1] (mkPage (mkWindow (Some logger) None) [] []))
         ++ [lib1]).
Proof.
  split.
  - split; [reflexivity|]. exact (proj1 (script_twice lib1 fresh) eq_refl).
  - split; [reflexivity|].
    exact (proj2 (script_twice lib1 (mkPage (mkWindow (Some logger) None) [] []))
             logger eq_refl).
Defined.

End ScriptsRun.
